(** * Media-file detection by extension

    A shallow embedding of [is_image_or_video] from
    [ai-services/mafm/mafm/rag/C_library/utils.c], together with the two
    [<string.h>] routines it calls, over a small model of C character
    arrays.  A computation is a function of the memory that either goes
    wrong (undefined behaviour) or returns a value and the memory it
    leaves behind. *)

From Stdlib Require Import ZArith List Ascii String Bool Lia.
Import ListNotations.

Local Open Scope Z_scope.

(** ** Memory: character arrays, pointers, computations *)

Module Mem.

(** The terminating null character. *)
Definition NUL : ascii := Ascii.zero.

(** An object is either the array of a string literal (static storage)
    or one of the arrays held by the memory. *)
Inductive block : Type :=
| Static (lit : string)
| Dynamic (id : nat).

(** A non-null [char *]: an object and an offset into it. *)
Record ptr : Type := Ptr { blk : block; ofs : nat }.

(** A [char *]; [None] is the null pointer. *)
Definition pointer : Type := option ptr.

Definition NULL : pointer := None.

Definition is_null (p : pointer) : bool :=
  match p with None => true | Some _ => false end.

(** [s + n] in C. *)
Definition ptr_add (p : ptr) (n : nat) : ptr :=
  Ptr (blk p) (ofs p + n).

(** The memory: the contents of the dynamic arrays. *)
Definition mem : Type := list (list ascii).

(** The array of a string literal: its characters and a terminator. *)
Definition c_array (s : string) : list ascii :=
  (list_ascii_of_string s ++ [NUL])%list.

Definition object (m : mem) (b : block) : option (list ascii) :=
  match b with
  | Static lit => Some (c_array lit)
  | Dynamic id => nth_error m id
  end.

(** The characters of [p]'s object from [p] on; empty when [p] is at
    or past the end of the object. *)
Definition bytes_from (m : mem) (p : ptr) : option (list ascii) :=
  option_map (skipn (ofs p)) (object m (blk p)).

(** A string literal used as an expression. *)
Definition literal (s : string) : pointer := Some (Ptr (Static s) 0).

(** Computations: [None] is undefined behaviour. *)
Definition M (A : Type) : Type := mem -> option (A * mem).

Definition ret {A : Type} (a : A) : M A := fun m => Some (a, m).

Definition bind {A B : Type} (c : M A) (k : A -> M B) : M B :=
  fun m => match c m with
           | Some (a, m') => k a m'
           | None => None
           end.

Definition undefined {A : Type} : M A := fun _ => None.

(** Reading the characters an argument points to.  A null pointer or an
    object that is not there cannot be read. *)
Definition read (p : pointer) : M (list ascii) :=
  fun m => match p with
           | Some q => option_map (fun bs => (bs, m)) (bytes_from m q)
           | None => None
           end.

(** [*p = c]: the one operation that changes the memory.  String
    literals cannot be written. *)
Definition store (p : pointer) (c : ascii) : M unit :=
  fun m => match p with
           | Some (Ptr (Dynamic id) o) =>
               match nth_error m id with
               | Some bs =>
                   if (o <? List.length bs)%nat
                   then Some (tt, firstn id m
                                    ++ (firstn o bs ++ c :: skipn (S o) bs)
                                    :: skipn (S id) m)%list
                   else None
               | None => None
               end
           | _ => None
           end.

(** [a || b] on computations: [b] runs only when [a] is false. *)
Definition orM (a b : M bool) : M bool :=
  bind a (fun x => if x then ret true else b).

End Mem.

Import Mem.

Notation "x <- c ;; k" := (bind c (fun x => k))
  (at level 61, c at next level, right associativity).
Infix "|||" := orM (at level 50, left associativity).

(** ** The [<string.h>] routines the function calls *)

Module Libc.

(** A character as [unsigned char]. *)
Definition uchar (c : ascii) : Z := Z.of_nat (nat_of_ascii c).

(** The loop of [strrchr]: [bytes] is what [s] points to, [last] the
    latest match so far.  The terminator is part of the string, so it
    is compared with [c] before the loop stops. *)
Fixpoint strrchr_scan (bytes : list ascii) (s : ptr) (c : ascii)
         (last : pointer) : option pointer :=
  match bytes with
  | [] => None
  | b :: rest =>
      let last' := if Ascii.eqb b c then Some s else last in
      if Ascii.eqb b NUL then Some last'
      else strrchr_scan rest (ptr_add s 1) c last'
  end.

(** [char *strrchr(const char *s, int c)]: a pointer to the last
    occurrence of [c] in the string [s], or null. *)
Definition strrchr (s : pointer) (c : ascii) : M pointer :=
  match s with
  | Some q =>
      bytes <- read s ;;
      match strrchr_scan bytes q c NULL with
      | Some r => ret r
      | None => undefined
      end
  | None => undefined
  end.

(** The loop of [strcmp]: stop at the first difference, or with 0 at
    a common terminator. *)
Fixpoint strcmp_scan (l1 l2 : list ascii) : option Z :=
  match l1, l2 with
  | c1 :: r1, c2 :: r2 =>
      if Ascii.eqb c1 c2
      then if Ascii.eqb c1 NUL then Some 0 else strcmp_scan r1 r2
      else Some (uchar c1 - uchar c2)
  | _, _ => None
  end.

(** [int strcmp(const char *s1, const char *s2)]. *)
Definition strcmp (s1 s2 : pointer) : M Z :=
  l1 <- read s1 ;;
  l2 <- read s2 ;;
  match strcmp_scan l1 l2 with
  | Some z => ret z
  | None => undefined
  end.

End Libc.

Import Libc.

(** ** utils.c *)

(** [strcmp(a, b) == 0] *)
Definition strcmp_is_0 (a b : pointer) : M bool :=
  z <- strcmp a b ;; ret (z =? 0).

(** [int is_image_or_video(const char* filename)] *)
Definition is_image_or_video (filename : pointer) : M Z :=
  ext <- strrchr filename "."%char ;;
  if is_null ext then
    ret 0
  else
    hit <- (strcmp_is_0 ext (literal ".jpg") ||| strcmp_is_0 ext (literal ".png")
            ||| strcmp_is_0 ext (literal ".mp4") ||| strcmp_is_0 ext (literal ".avi")
            ||| strcmp_is_0 ext (literal ".mp3")) ;;
    if hit then ret 1 else ret 0.

(** ** Filenames

    The string an argument designates: the characters from the pointer up
    to the first terminator of its object.  [None] when the pointer is
    null or dangling, or the object has no terminator from there on. *)

Fixpoint until_nul (bs : list ascii) : option string :=
  match bs with
  | [] => None
  | b :: rest =>
      if Ascii.eqb b NUL then Some EmptyString
      else option_map (String b) (until_nul rest)
  end.

Definition c_string (m : mem) (p : pointer) : option string :=
  match p with
  | Some q =>
      match bytes_from m q with
      | Some bs => until_nul bs
      | None => None
      end
  | None => None
  end.

(** ** The classifier as the specification words it *)

Module Spec.

Local Open Scope string_scope.

(** The allow-list. *)
Definition media_extensions : list string :=
  [".jpg"; ".png"; ".mp4"; ".avi"; ".mp3"].

Definition listed (e : string) : bool :=
  existsb (String.eqb e) media_extensions.

(** Does [c] occur in [s]? *)
Fixpoint occurs (c : ascii) (s : string) : bool :=
  match s with
  | EmptyString => false
  | String a rest => Ascii.eqb a c || occurs c rest
  end.

Definition has_dot (s : string) : bool := occurs "."%char s.

(** Index of the last occurrence of [c] in [s]. *)
Fixpoint rindex (c : ascii) (s : string) : option nat :=
  match s with
  | EmptyString => None
  | String a rest =>
      match rindex c rest with
      | Some i => Some (S i)
      | None => if Ascii.eqb a c then Some 0%nat else None
      end
  end.

(** The substring of [s] from index [n] to the end. *)
Fixpoint suffix_from (n : nat) (s : string) : string :=
  match n, s with
  | O, _ => s
  | S n', EmptyString => EmptyString
  | S n', String _ rest => suffix_from n' rest
  end.

(** Extension: the substring from the last [.] to the end, the [.]
    included; a filename without [.] has none. *)
Definition extension (s : string) : option string :=
  option_map (fun i => suffix_from i s) (rindex "."%char s).

(** [isImageOrVideo(filename) -> bool] *)
Definition isImageOrVideo (filename : string) : bool :=
  match extension filename with
  | Some e => listed e
  | None => false
  end.

(** Letter case. *)
Definition to_lower (c : ascii) : ascii :=
  let n := nat_of_ascii c in
  if ((65 <=? n) && (n <=? 90))%nat then ascii_of_nat (n + 32) else c.

Fixpoint lowercase (s : string) : string :=
  match s with
  | EmptyString => EmptyString
  | String a rest => String (to_lower a) (lowercase rest)
  end.

(** [a] and [b] are different strings that agree once letter case is
    ignored. *)
Definition differ_in_case_only (a b : string) : bool :=
  negb (String.eqb a b) && String.eqb (lowercase a) (lowercase b).

End Spec.

Import Spec.

(** ** A memory to run the function on *)

Module Examples.

Local Open Scope string_scope.

(** Six arrays.  The first holds a path whose last component is a
    filename; the second has characters left over after its
    terminator. *)
Definition heap : mem :=
  [ c_array "media/clip.mp4";
    (c_array "readme" ++ list_ascii_of_string ".jpg")%list;
    c_array "PHOTO.PNG";
    c_array "archive.tar.mp3";
    c_array "video.mov";
    c_array ".jpg" ].

Definition at_ (id o : nat) : pointer := Some (Ptr (Dynamic id) o).

Definition clip : pointer := at_ 0 6.
Definition empty : pointer := at_ 0 14.
Definition readme : pointer := at_ 1 0.
Definition photo_upper : pointer := at_ 2 0.
Definition archive : pointer := at_ 3 0.
Definition video : pointer := at_ 4 0.
Definition dotfile : pointer := at_ 5 0.

End Examples.

(** ** Strings and their arrays *)

Section Strings.

Local Open Scope string_scope.

Lemma ascii_eqb_NUL_neq (a c : ascii) :
  Ascii.eqb a NUL = true -> c <> NUL -> Ascii.eqb a c = false.
Proof.
  intros Ha Hc. apply Ascii.eqb_eq in Ha. subst a.
  apply Ascii.eqb_neq. congruence.
Qed.

Lemma uchar_inj (a b : ascii) : uchar a = uchar b -> a = b.
Proof.
  unfold uchar. intros H. apply Nat2Z.inj in H.
  rewrite <- (ascii_nat_embedding a), <- (ascii_nat_embedding b).
  now rewrite H.
Qed.

(** What [until_nul] finds has no terminator in it. *)
Lemma until_nul_nul_free (bs : list ascii) (s : string) :
  until_nul bs = Some s -> occurs NUL s = false.
Proof.
  revert s. induction bs as [|b rest IH]; intros s; simpl.
  - discriminate.
  - destruct (Ascii.eqb b NUL) eqn:Hb.
    + intros [= <-]. reflexivity.
    + destruct (until_nul rest) as [t|]; simpl; [|discriminate].
      intros [= <-]. simpl. rewrite Hb. simpl. now apply IH.
Qed.

(** The array of a literal without embedded terminator reads back as
    the literal. *)
Lemma until_nul_c_array (s : string) :
  occurs NUL s = false -> until_nul (c_array s) = Some s.
Proof.
  unfold c_array. induction s as [|a rest IH]; simpl.
  - reflexivity.
  - intros H. apply orb_false_iff in H. destruct H as [Ha Hrest].
    rewrite Ha, (IH Hrest). reflexivity.
Qed.

Lemma until_nul_skipn (bs : list ascii) (s : string) (i : nat) :
  until_nul bs = Some s -> (i <= String.length s)%nat ->
  until_nul (skipn i bs) = Some (suffix_from i s).
Proof.
  revert bs s. induction i as [|i IH]; intros bs s Hs Hi.
  - destruct s; exact Hs.
  - destruct bs as [|b rest]; simpl in Hs; [discriminate|].
    destruct (Ascii.eqb b NUL).
    + injection Hs as <-. simpl in Hi. lia.
    + destruct (until_nul rest) as [t|] eqn:Ht; simpl in Hs; [|discriminate].
      injection Hs as <-. simpl in Hi. simpl. apply IH; [exact Ht | lia].
Qed.

Lemma rindex_lt (c : ascii) (s : string) (i : nat) :
  rindex c s = Some i -> (i < String.length s)%nat.
Proof.
  revert i. induction s as [|a rest IH]; intros i; simpl.
  - discriminate.
  - destruct (rindex c rest) as [j|].
    + intros [= <-]. specialize (IH j eq_refl). lia.
    + destruct (Ascii.eqb a c); [|discriminate]. intros [= <-]. lia.
Qed.

Lemma rindex_none_occurs (c : ascii) (s : string) :
  rindex c s = None <-> occurs c s = false.
Proof.
  induction s as [|a rest IH]; simpl.
  - tauto.
  - destruct (rindex c rest) as [j|].
    + split; [discriminate|]. intros H. apply orb_false_iff in H.
      destruct IH as [_ IH]. now specialize (IH (proj2 H)).
    + destruct IH as [IH _]. rewrite (IH eq_refl).
      destruct (Ascii.eqb a c); simpl; split; congruence.
Qed.

Lemma extension_none_iff (s : string) :
  extension s = None <-> has_dot s = false.
Proof.
  unfold extension, has_dot. rewrite <- rindex_none_occurs.
  destruct (rindex "."%char s); simpl; split; congruence.
Qed.

Lemma extension_cons (a : ascii) (rest : string) :
  extension (String a rest) =
  match extension rest with
  | Some e => Some e
  | None => if Ascii.eqb a "."%char then Some (String a rest) else None
  end.
Proof.
  unfold extension. simpl.
  destruct (rindex "."%char rest); simpl; [reflexivity|].
  destruct (Ascii.eqb a "."%char); reflexivity.
Qed.

(** The extension of [pre ++ "." ++ tail] is ["." ++ tail] when [tail]
    has no dot, whatever [pre] holds. *)
Lemma extension_app (pre tail : string) :
  has_dot tail = false ->
  extension (pre ++ String "."%char tail) = Some (String "."%char tail).
Proof.
  intros Ht. induction pre as [|a rest IH].
  - change (EmptyString ++ String "."%char tail) with (String "."%char tail).
    rewrite extension_cons.
    apply extension_none_iff in Ht. rewrite Ht. reflexivity.
  - change (String a rest ++ String "."%char tail)
      with (String a (rest ++ String "."%char tail)).
    rewrite extension_cons, IH. reflexivity.
Qed.

(** [extension] is the substring from the last dot: it splits the
    filename into what is before that dot and a dot followed by
    dot-free characters. *)
Lemma extension_split (s e : string) :
  extension s = Some e <->
  exists pre tail,
    s = pre ++ e /\ e = String "."%char tail /\ has_dot tail = false.
Proof.
  split.
  - revert e. induction s as [|a rest IH]; intros e.
    + discriminate.
    + rewrite extension_cons.
      destruct (extension rest) as [e'|] eqn:He.
      * intros [= <-]. destruct (IH e' eq_refl) as (pre & tail & H1 & H2 & H3).
        exists (String a pre), tail. simpl. now rewrite <- H1.
      * destruct (Ascii.eqb a "."%char) eqn:Ha; [|discriminate].
        intros [= <-]. apply Ascii.eqb_eq in Ha. subst a.
        exists EmptyString, rest. repeat split.
        now apply extension_none_iff.
  - intros (pre & tail & -> & -> & Ht). now apply extension_app.
Qed.

Lemma listed_In (e : string) : listed e = true <-> In e media_extensions.
Proof.
  unfold listed. rewrite existsb_exists. split.
  - intros (x & Hx & He). apply String.eqb_eq in He. now subst.
  - intros H. exists e. split; [exact H | apply String.eqb_refl].
Qed.

Lemma listed_extension (e : string) :
  listed e = true -> extension e = Some e.
Proof.
  intros H. apply listed_In in H. simpl in H.
  repeat (destruct H as [<- | H]; [reflexivity|]). contradiction.
Qed.

End Strings.

(** ** The library routines on well-formed strings *)

Section Routines.

Local Open Scope string_scope.

Lemma extension_app_listed (base e : string) :
  listed e = true -> extension (base ++ e) = Some e.
Proof.
  intros H. apply listed_In in H. simpl in H.
  repeat (destruct H as [<- | H]; [now apply extension_app|]).
  contradiction.
Qed.

Lemma ptr_add_0 (q : ptr) : ptr_add q 0 = q.
Proof. destruct q as [b o]. unfold ptr_add. simpl. now rewrite Nat.add_0_r. Qed.

Lemma ptr_add_S (q : ptr) (i : nat) : ptr_add (ptr_add q 1) i = ptr_add q (S i).
Proof. unfold ptr_add. simpl. f_equal. lia. Qed.

(** The loop of [strrchr] ends on the last occurrence of [c], or keeps
    the match it started with. *)
Lemma strrchr_scan_rindex (c : ascii) (bs : list ascii) :
  c <> NUL ->
  forall (s : string) (q : ptr) (last : pointer),
    until_nul bs = Some s ->
    strrchr_scan bs q c last =
    Some (match rindex c s with
          | Some i => Some (ptr_add q i)
          | None => last
          end).
Proof.
  intros Hc. induction bs as [|b rest IH]; intros s q last Hs; simpl in Hs.
  - discriminate.
  - simpl. destruct (Ascii.eqb b NUL) eqn:Hb.
    + injection Hs as <-. rewrite (ascii_eqb_NUL_neq _ _ Hb Hc). reflexivity.
    + destruct (until_nul rest) as [t|] eqn:Ht; simpl in Hs; [|discriminate].
      injection Hs as <-. rewrite (IH t _ _ eq_refl). simpl.
      destruct (rindex c t) as [j|].
      * now rewrite ptr_add_S.
      * destruct (Ascii.eqb b c); [now rewrite ptr_add_0 | reflexivity].
Qed.

(** The loop of [strcmp] returns 0 exactly on equal strings. *)
Lemma strcmp_scan_eqb (l1 : list ascii) :
  forall (l2 : list ascii) (a b : string),
    until_nul l1 = Some a -> until_nul l2 = Some b ->
    exists z, strcmp_scan l1 l2 = Some z /\ (z =? 0)%Z = String.eqb a b.
Proof.
  induction l1 as [|c1 r1 IH]; intros l2 a b Ha Hb; simpl in Ha.
  - discriminate.
  - destruct l2 as [|c2 r2]; simpl in Hb; [discriminate|]. simpl.
    destruct (Ascii.eqb c1 c2) eqn:Hc.
    + apply Ascii.eqb_eq in Hc. subst c2.
      destruct (Ascii.eqb c1 NUL).
      * injection Ha as <-. injection Hb as <-. now exists 0.
      * destruct (until_nul r1) as [ta|] eqn:Hta; simpl in Ha; [|discriminate].
        destruct (until_nul r2) as [tb|] eqn:Htb; simpl in Hb; [|discriminate].
        injection Ha as <-. injection Hb as <-.
        destruct (IH r2 ta tb eq_refl Htb) as (z & Hz & Hzeq).
        exists z. split; [exact Hz|]. simpl. now rewrite Ascii.eqb_refl.
    + exists (uchar c1 - uchar c2). split; [reflexivity|].
      assert (Hne : uchar c1 - uchar c2 <> 0).
      { intros H. apply Ascii.eqb_neq in Hc. apply Hc, uchar_inj. lia. }
      apply Z.eqb_neq in Hne. rewrite Hne. symmetry.
      apply String.eqb_neq. intros Heq. subst b.
      destruct (Ascii.eqb c1 NUL) eqn:H1, (Ascii.eqb c2 NUL) eqn:H2.
      * apply Ascii.eqb_eq in H1, H2. apply Ascii.eqb_neq in Hc. congruence.
      * injection Ha as <-. destruct (until_nul r2); discriminate.
      * injection Hb as <-. destruct (until_nul r1); discriminate.
      * destruct (until_nul r1), (until_nul r2); simpl in Ha, Hb; try discriminate.
        apply Ascii.eqb_neq in Hc. congruence.
Qed.

Variable m : mem.

(** Reading a pointer that designates a string. *)
Lemma read_c_string (p : pointer) (s : string) :
  c_string m p = Some s ->
  exists bs, read p m = Some (bs, m) /\ until_nul bs = Some s.
Proof.
  destruct p as [q|]; simpl; [|discriminate].
  destruct (bytes_from m q) as [bs|]; [|discriminate].
  intros H. now exists bs.
Qed.

Lemma c_string_ptr_add (q : ptr) (s : string) (i : nat) :
  c_string m (Some q) = Some s -> (i <= String.length s)%nat ->
  c_string m (Some (ptr_add q i)) = Some (suffix_from i s).
Proof.
  unfold c_string, bytes_from, ptr_add. simpl.
  destruct (object m (blk q)) as [bs|]; simpl; [|discriminate].
  intros Hs Hi. rewrite Nat.add_comm, <- skipn_skipn.
  now apply until_nul_skipn.
Qed.

Lemma c_string_literal (s : string) :
  occurs NUL s = false -> c_string m (literal s) = Some s.
Proof. intros H. simpl. now apply until_nul_c_array. Qed.

(** [strrchr] on a string: a pointer to its last [c], the memory as it
    was. *)
Lemma strrchr_c_string (q : ptr) (c : ascii) (s : string) :
  c <> NUL -> c_string m (Some q) = Some s ->
  strrchr (Some q) c m =
  Some (option_map (ptr_add q) (rindex c s), m).
Proof.
  intros Hc Hs. destruct (read_c_string _ _ Hs) as (bs & Hr & Hbs).
  unfold strrchr, bind. rewrite Hr.
  rewrite (strrchr_scan_rindex c bs Hc s q NULL Hbs).
  unfold ret. destruct (rindex c s); reflexivity.
Qed.

(** [strcmp(a, b) == 0] on two strings: their equality, the memory as
    it was. *)
Lemma strcmp_is_0_c_string (a b : pointer) (x y : string) :
  c_string m a = Some x -> c_string m b = Some y ->
  strcmp_is_0 a b m = Some (String.eqb x y, m).
Proof.
  intros Ha Hb.
  destruct (read_c_string _ _ Ha) as (la & Hra & Hla).
  destruct (read_c_string _ _ Hb) as (lb & Hrb & Hlb).
  destruct (strcmp_scan_eqb la lb x y Hla Hlb) as (z & Hz & Hzeq).
  unfold strcmp_is_0, strcmp, bind. rewrite Hra, Hrb, Hz.
  unfold ret. now rewrite Hzeq.
Qed.

Lemma orM_run (a b : M bool) (x y : bool) :
  a m = Some (x, m) -> b m = Some (y, m) ->
  (a ||| b) m = Some (x || y, m).
Proof.
  intros Ha Hb. unfold orM, bind. rewrite Ha.
  destruct x; [reflexivity | exact Hb].
Qed.

(** The function on a pointer that designates the filename [s]: it
    returns, leaves the memory as it was, and its value is the
    specification's decision on [s]. *)
Lemma is_image_or_video_run (p : pointer) (s : string) :
  c_string m p = Some s ->
  is_image_or_video p m = Some (if isImageOrVideo s then 1 else 0, m).
Proof.
  intros Hs. destruct p as [q|]; [|discriminate].
  unfold is_image_or_video, bind at 1.
  rewrite (strrchr_c_string q "."%char s ltac:(discriminate) Hs).
  unfold isImageOrVideo, extension.
  destruct (rindex "."%char s) as [i|] eqn:Hi; simpl; [|reflexivity].
  pose proof (c_string_ptr_add q s i Hs
                (Nat.lt_le_incl _ _ (rindex_lt _ _ _ Hi))) as He.
  set (ext := Some (ptr_add q i)) in *. set (e := suffix_from i s) in *.
  assert (Hcmp : forall l, occurs NUL l = false ->
                           strcmp_is_0 ext (literal l) m = Some (String.eqb e l, m)).
  { intros l Hl. apply strcmp_is_0_c_string; [exact He|].
    now apply c_string_literal. }
  unfold bind.
  rewrite (orM_run _ _ _ _
             (orM_run _ _ _ _
                (orM_run _ _ _ _
                   (orM_run _ _ _ _ (Hcmp ".jpg" eq_refl) (Hcmp ".png" eq_refl))
                   (Hcmp ".mp4" eq_refl))
                (Hcmp ".avi" eq_refl))
             (Hcmp ".mp3" eq_refl)).
  unfold listed, media_extensions. simpl.
  destruct (String.eqb e ".jpg"), (String.eqb e ".png"), (String.eqb e ".mp4"),
    (String.eqb e ".avi"), (String.eqb e ".mp3"); reflexivity.
Qed.

End Routines.

Section MoreStrings.

Local Open Scope string_scope.

Lemma rindex_app (c : ascii) (pre tail : string) :
  occurs c tail = false ->
  rindex c (pre ++ String c tail) = Some (String.length pre).
Proof.
  intros Ht. apply rindex_none_occurs in Ht.
  induction pre as [|a rest IH]; simpl.
  - now rewrite Ht, Ascii.eqb_refl.
  - now rewrite IH.
Qed.

(** An extension that differs from a listed one in letter case only is
    not itself listed. *)
Lemma case_variant_not_listed (e l : string) :
  In l media_extensions -> differ_in_case_only e l = true -> listed e = false.
Proof.
  intros Hl Hd. destruct (listed e) eqn:He; [|reflexivity].
  apply listed_In in He. simpl in He, Hl.
  repeat (destruct He as [<- | He]; [|]); try contradiction;
    repeat (destruct Hl as [<- | Hl]; [discriminate Hd|]); contradiction.
Qed.

(** Outside its strings the function has no defined behaviour. *)
Lemma strrchr_scan_unterminated (bs : list ascii) :
  until_nul bs = None ->
  forall q c last, strrchr_scan bs q c last = None.
Proof.
  induction bs as [|b rest IH]; intros H q c last; simpl in *.
  - reflexivity.
  - destruct (Ascii.eqb b NUL); [discriminate|].
    destruct (until_nul rest); [discriminate|]. now apply IH.
Qed.

Lemma is_image_or_video_undefined (m : mem) (filename : pointer) :
  c_string m filename = None -> is_image_or_video filename m = None.
Proof.
  destruct filename as [q|]; [|reflexivity].
  unfold is_image_or_video, strrchr, bind, read, c_string.
  destruct (bytes_from m q) as [bs|]; simpl; [|reflexivity].
  intros H. now rewrite (strrchr_scan_unterminated bs H).
Qed.

End MoreStrings.

(** ** The properties of [is_image_or_video] *)

Section Claims.

Local Open Scope string_scope.

(** C1.  On every filename the function returns 1 exactly when the
    filename has a [.] and the substring from its last [.] to its end is
    one of [.jpg], [.png], [.mp4], [.avi], [.mp3]; otherwise it
    returns 0. *)
Theorem is_image_or_video_iff_listed_extension
        (m : mem) (filename : pointer) (s : string) :
  c_string m filename = Some s ->
  exists r,
    is_image_or_video filename m = Some (r, m) /\
    (r = 1 <->
     has_dot s = true /\ exists e, extension s = Some e /\ In e media_extensions) /\
    (r = 0 <->
     ~ (has_dot s = true /\ exists e, extension s = Some e /\ In e media_extensions)).
Proof.
  intros Hs. eexists. split; [exact (is_image_or_video_run m _ _ Hs)|].
  unfold isImageOrVideo.
  destruct (extension s) as [e|] eqn:He.
  - assert (Hdot : has_dot s = true).
    { destruct (has_dot s) eqn:Hd; [reflexivity|].
      apply extension_none_iff in Hd. congruence. }
    destruct (listed e) eqn:Hl.
    + assert (Hin : In e media_extensions) by now apply listed_In.
      split; split.
      * intros _. split; [exact Hdot | now exists e].
      * reflexivity.
      * discriminate.
      * intros H0. exfalso. apply H0. split; [exact Hdot | now exists e].
    + assert (Hn : ~ In e media_extensions).
      { intros H. apply listed_In in H. congruence. }
      split; split.
      * discriminate.
      * intros (_ & e' & [= <-] & H). contradiction.
      * intros _ (_ & e' & [= <-] & H). contradiction.
      * reflexivity.
  - split; split.
    + discriminate.
    + intros (_ & e' & H & _). discriminate.
    + intros _ (_ & e' & H & _). discriminate.
    + reflexivity.
Qed.

(** C2.  A filename without any [.] is answered 0: a negative answer,
    returned normally. *)
Theorem no_dot_not_media (m : mem) (filename : pointer) (s : string) :
  c_string m filename = Some s ->
  has_dot s = false ->
  is_image_or_video filename m = Some (0, m).
Proof.
  intros Hs Hd. rewrite (is_image_or_video_run m _ _ Hs).
  unfold isImageOrVideo. apply extension_none_iff in Hd. now rewrite Hd.
Qed.

(** C3.  A filename that ends in [.jpg], [.png], [.mp4], [.avi] or
    [.mp3] is answered 1; so are ["clip.mp4"] and ["photo.png"]. *)
Theorem listed_suffix_is_media :
  (forall (m : mem) (filename : pointer) (s base e : string),
      c_string m filename = Some s ->
      In e media_extensions ->
      s = base ++ e ->
      is_image_or_video filename m = Some (1, m)) /\
  (forall (m : mem) (filename : pointer),
      c_string m filename = Some "clip.mp4" ->
      is_image_or_video filename m = Some (1, m)) /\
  (forall (m : mem) (filename : pointer),
      c_string m filename = Some "photo.png" ->
      is_image_or_video filename m = Some (1, m)).
Proof.
  repeat split.
  - intros m filename s base e Hs He ->.
    rewrite (is_image_or_video_run m _ _ Hs). unfold isImageOrVideo.
    apply listed_In in He. now rewrite (extension_app_listed base e He), He.
  - intros m filename Hs. now rewrite (is_image_or_video_run m _ _ Hs).
  - intros m filename Hs. now rewrite (is_image_or_video_run m _ _ Hs).
Qed.

(** C4.  Matching is case-sensitive: a filename whose extension differs
    from a listed one in letter case only is answered 0, and
    ["PHOTO.PNG"], whose extension [.PNG] differs so from [.png], is
    such a filename. *)
Theorem extension_match_case_sensitive :
  (forall (m : mem) (filename : pointer) (s e l : string),
      c_string m filename = Some s ->
      extension s = Some e ->
      In l media_extensions ->
      differ_in_case_only e l = true ->
      is_image_or_video filename m = Some (0, m)) /\
  (extension "PHOTO.PNG" = Some ".PNG" /\
   In ".png" media_extensions /\
   differ_in_case_only ".PNG" ".png" = true) /\
  (forall (m : mem) (filename : pointer),
      c_string m filename = Some "PHOTO.PNG" ->
      is_image_or_video filename m = Some (0, m)).
Proof.
  split; [|split].
  - intros m filename s e l Hs He Hl Hd.
    rewrite (is_image_or_video_run m _ _ Hs). unfold isImageOrVideo.
    now rewrite He, (case_variant_not_listed e l Hl Hd).
  - repeat split. simpl. tauto.
  - intros m filename Hs. now rewrite (is_image_or_video_run m _ _ Hs).
Qed.

(** C5.  The last [.] decides.  On a filename [pre ++ "." ++ tail]
    with no [.] in [tail], whatever dots [pre] holds, [strrchr] returns
    the position of that final [.] and the answer is 1 exactly when
    ["." ++ tail] is listed; so ["archive.tar.mp3"] is answered 1. *)
Theorem last_dot_decides :
  (forall (m : mem) (q : ptr) (pre tail : string),
      c_string m (Some q) = Some (pre ++ String "."%char tail) ->
      has_dot tail = false ->
      strrchr (Some q) "."%char m
      = Some (Some (ptr_add q (String.length pre)), m) /\
      is_image_or_video (Some q) m
      = Some (if listed (String "."%char tail) then 1 else 0, m)) /\
  (forall (m : mem) (filename : pointer),
      c_string m filename = Some "archive.tar.mp3" ->
      is_image_or_video filename m = Some (1, m)).
Proof.
  split.
  - intros m q pre tail Hs Ht. split.
    + rewrite (strrchr_c_string m q "."%char _ ltac:(discriminate) Hs).
      now rewrite (rindex_app "."%char pre tail Ht).
    + rewrite (is_image_or_video_run m _ _ Hs). unfold isImageOrVideo.
      now rewrite (extension_app pre tail Ht).
  - intros m filename Hs. now rewrite (is_image_or_video_run m _ _ Hs).
Qed.

(** C6.  The empty filename is accepted and answered 0. *)
Theorem empty_filename_not_media (m : mem) (filename : pointer) :
  c_string m filename = Some "" ->
  is_image_or_video filename m = Some (0, m).
Proof.
  intros Hs. now rewrite (is_image_or_video_run m _ _ Hs).
Qed.

(** C7.  A filename whose extension is not one of the five listed
    values is answered 0; so are filenames with the near variants
    [.jpeg], [.mov] and [.JPG]. *)
Theorem unlisted_extension_not_media :
  (forall (m : mem) (filename : pointer) (s e : string),
      c_string m filename = Some s ->
      extension s = Some e ->
      ~ In e media_extensions ->
      is_image_or_video filename m = Some (0, m)) /\
  (forall (m : mem) (filename : pointer) (s base : string),
      c_string m filename = Some s ->
      s = base ++ ".jpeg" \/ s = base ++ ".mov" \/ s = base ++ ".JPG" ->
      is_image_or_video filename m = Some (0, m)).
Proof.
  split.
  - intros m filename s e Hs He Hn.
    rewrite (is_image_or_video_run m _ _ Hs). unfold isImageOrVideo.
    rewrite He. destruct (listed e) eqn:Hl; [|reflexivity].
    apply listed_In in Hl. contradiction.
  - intros m filename s base Hs H.
    rewrite (is_image_or_video_run m _ _ Hs). unfold isImageOrVideo.
    destruct H as [-> | [-> | ->]].
    + now rewrite (extension_app base "jpeg" eq_refl).
    + now rewrite (extension_app base "mov" eq_refl).
    + now rewrite (extension_app base "JPG" eq_refl).
Qed.

(** C8.  The function is pure: two calls on the same filename, in
    whatever memories and at whatever addresses it is held, return the
    same value, and each leaves its memory as it found it. *)
Theorem is_image_or_video_pure
        (m1 m2 : mem) (filename1 filename2 : pointer) (s : string) :
  c_string m1 filename1 = Some s ->
  c_string m2 filename2 = Some s ->
  exists r,
    is_image_or_video filename1 m1 = Some (r, m1) /\
    is_image_or_video filename2 m2 = Some (r, m2).
Proof.
  intros H1 H2. eexists. split.
  - exact (is_image_or_video_run m1 _ _ H1).
  - exact (is_image_or_video_run m2 _ _ H2).
Qed.

(** C9.  The value returned is 0 or 1 and nothing else: on every
    filename the function returns one of the two, and no call at all
    returns anything else. *)
Theorem is_image_or_video_0_or_1 :
  (forall (m : mem) (filename : pointer) (s : string),
      c_string m filename = Some s ->
      exists r,
        is_image_or_video filename m = Some (r, m) /\ (r = 0 \/ r = 1)) /\
  (forall (m m' : mem) (filename : pointer) (r : Z),
      is_image_or_video filename m = Some (r, m') -> r = 0 \/ r = 1).
Proof.
  assert (H : forall (m : mem) (filename : pointer) (s : string),
             c_string m filename = Some s ->
             exists r,
               is_image_or_video filename m = Some (r, m) /\ (r = 0 \/ r = 1)).
  { intros m filename s Hs. eexists.
    split; [exact (is_image_or_video_run m _ _ Hs)|].
    destruct (isImageOrVideo s); auto. }
  split; [exact H|].
  intros m m' filename r Hr.
  destruct (c_string m filename) as [s|] eqn:Hs.
  - destruct (H m filename s Hs) as (r' & Hr' & H01). congruence.
  - rewrite (is_image_or_video_undefined m filename Hs) in Hr. discriminate.
Qed.

(** C10.  A filename that is nothing but a listed extension, such as
    [.jpg] or [.mp3], is answered 1: its last [.] is its first
    character and it equals its own extension. *)
Theorem bare_extension_is_media :
  (forall (m : mem) (filename : pointer) (e : string),
      In e media_extensions ->
      c_string m filename = Some e ->
      rindex "."%char e = Some 0%nat /\
      extension e = Some e /\
      is_image_or_video filename m = Some (1, m)) /\
  (forall (m : mem) (filename : pointer),
      c_string m filename = Some ".jpg" ->
      is_image_or_video filename m = Some (1, m)) /\
  (forall (m : mem) (filename : pointer),
      c_string m filename = Some ".mp3" ->
      is_image_or_video filename m = Some (1, m)).
Proof.
  split; [|split].
  - intros m filename e He Hs. repeat split.
    + simpl in He.
      repeat (destruct He as [<- | He]; [reflexivity|]). contradiction.
    + apply listed_extension. now apply listed_In.
    + rewrite (is_image_or_video_run m _ _ Hs). unfold isImageOrVideo.
      apply listed_In in He. now rewrite (listed_extension e He), He.
  - intros m filename Hs. now rewrite (is_image_or_video_run m _ _ Hs).
  - intros m filename Hs. now rewrite (is_image_or_video_run m _ _ Hs).
Qed.

End Claims.

(** ** The properties at work on the example memory *)

Section Witnesses.

Import Examples.
Local Open Scope string_scope.

Lemma is_image_or_video_iff_listed_extension_witness :
  c_string heap clip = Some "clip.mp4" /\
  exists r,
    is_image_or_video clip heap = Some (r, heap) /\
    (r = 1 <->
     has_dot "clip.mp4" = true /\
     exists e, extension "clip.mp4" = Some e /\ In e media_extensions) /\
    (r = 0 <->
     ~ (has_dot "clip.mp4" = true /\
        exists e, extension "clip.mp4" = Some e /\ In e media_extensions)).
Proof.
  split; [reflexivity|].
  exact (is_image_or_video_iff_listed_extension heap clip "clip.mp4" eq_refl).
Defined.

Lemma no_dot_not_media_witness :
  c_string heap readme = Some "readme" /\
  has_dot "readme" = false /\
  is_image_or_video readme heap = Some (0, heap).
Proof.
  refine (conj eq_refl (conj eq_refl _)).
  exact (no_dot_not_media heap readme "readme" eq_refl eq_refl).
Defined.

Lemma listed_suffix_is_media_witness :
  c_string heap clip = Some "clip.mp4" /\
  In ".mp4" media_extensions /\
  "clip.mp4" = "clip" ++ ".mp4" /\
  is_image_or_video clip heap = Some (1, heap).
Proof.
  assert (Hin : In ".mp4" media_extensions) by (simpl; tauto).
  refine (conj eq_refl (conj Hin (conj eq_refl _))).
  exact (proj1 listed_suffix_is_media
               heap clip "clip.mp4" "clip" ".mp4" eq_refl Hin eq_refl).
Defined.

Lemma extension_match_case_sensitive_witness :
  c_string heap photo_upper = Some "PHOTO.PNG" /\
  extension "PHOTO.PNG" = Some ".PNG" /\
  In ".png" media_extensions /\
  differ_in_case_only ".PNG" ".png" = true /\
  is_image_or_video photo_upper heap = Some (0, heap).
Proof.
  assert (Hin : In ".png" media_extensions) by (simpl; tauto).
  refine (conj eq_refl (conj eq_refl (conj Hin (conj eq_refl _)))).
  exact (proj1 extension_match_case_sensitive
               heap photo_upper "PHOTO.PNG" ".PNG" ".png"
               eq_refl eq_refl Hin eq_refl).
Defined.

Lemma last_dot_decides_witness :
  c_string heap archive = Some ("archive.tar" ++ String "."%char "mp3") /\
  has_dot "mp3" = false /\
  strrchr archive "."%char heap = Some (at_ 3 11, heap) /\
  is_image_or_video archive heap = Some (1, heap).
Proof.
  refine (conj eq_refl (conj eq_refl _)).
  exact (proj1 last_dot_decides
               heap (Ptr (Dynamic 3) 0) "archive.tar" "mp3" eq_refl eq_refl).
Defined.

Lemma empty_filename_not_media_witness :
  c_string heap empty = Some "" /\
  is_image_or_video empty heap = Some (0, heap).
Proof.
  split; [reflexivity|].
  exact (empty_filename_not_media heap empty eq_refl).
Defined.

Lemma unlisted_extension_not_media_witness :
  c_string heap video = Some "video.mov" /\
  extension "video.mov" = Some ".mov" /\
  ~ In ".mov" media_extensions /\
  is_image_or_video video heap = Some (0, heap).
Proof.
  assert (Hn : ~ In ".mov" media_extensions)
    by (simpl; intuition discriminate).
  refine (conj eq_refl (conj eq_refl (conj Hn _))).
  exact (proj1 unlisted_extension_not_media
               heap video "video.mov" ".mov" eq_refl eq_refl Hn).
Defined.

Lemma is_image_or_video_pure_witness :
  c_string heap clip = Some "clip.mp4" /\
  c_string [] (literal "clip.mp4") = Some "clip.mp4" /\
  exists r,
    is_image_or_video clip heap = Some (r, heap) /\
    is_image_or_video (literal "clip.mp4") [] = Some (r, []).
Proof.
  refine (conj eq_refl (conj eq_refl _)).
  exact (is_image_or_video_pure heap [] clip (literal "clip.mp4") "clip.mp4"
                                eq_refl eq_refl).
Defined.

Lemma is_image_or_video_0_or_1_witness :
  (c_string heap readme = Some "readme" /\
   exists r,
     is_image_or_video readme heap = Some (r, heap) /\ (r = 0 \/ r = 1)) /\
  (is_image_or_video clip heap = Some (1, heap) /\ (1 = 0 \/ 1 = 1)).
Proof.
  split; (split; [reflexivity|]).
  - exact (proj1 is_image_or_video_0_or_1 heap readme "readme" eq_refl).
  - exact (proj2 is_image_or_video_0_or_1 heap heap clip 1 eq_refl).
Defined.

Lemma bare_extension_is_media_witness :
  In ".jpg" media_extensions /\
  c_string heap dotfile = Some ".jpg" /\
  rindex "."%char ".jpg" = Some 0%nat /\
  extension ".jpg" = Some ".jpg" /\
  is_image_or_video dotfile heap = Some (1, heap).
Proof.
  assert (Hin : In ".jpg" media_extensions) by (simpl; tauto).
  refine (conj Hin (conj eq_refl _)).
  exact (proj1 bare_extension_is_media heap dotfile ".jpg" Hin eq_refl).
Defined.

(** The memory is a state the function does read: after a store into
    the filename the same pointer designates another string and gets
    another answer, and a store over the terminator leaves no string to
    call the function on. *)
Example store_then_call :
  is_image_or_video clip heap = Some (1, heap) /\
  (exists m',
      store (at_ 0 13) "x"%char heap = Some (tt, m') /\
      c_string m' clip = Some "clip.mpx" /\
      is_image_or_video clip m' = Some (0, m')) /\
  (_ <- store (at_ 1 6) "a"%char ;; is_image_or_video readme) heap = None.
Proof.
  split; [reflexivity|]. split; [|reflexivity].
  eexists. split; [reflexivity|]. split; reflexivity.
Qed.

End Witnesses.

(** ** Further properties of [is_image_or_video] *)

Section FurtherStrings.

Local Open Scope string_scope.

Lemma append_assoc (a b c : string) : (a ++ b) ++ c = a ++ (b ++ c).
Proof. induction a as [|x a IH]; simpl; [reflexivity | now rewrite IH]. Qed.

Lemma length_append (a b : string) :
  String.length (a ++ b) = (String.length a + String.length b)%nat.
Proof. induction a as [|x a IH]; simpl; [reflexivity | now rewrite IH]. Qed.

Lemma occurs_append (c : ascii) (a b : string) :
  occurs c (a ++ b) = occurs c a || occurs c b.
Proof.
  induction a as [|x a IH]; simpl; [reflexivity|].
  now rewrite IH, orb_assoc.
Qed.

Lemma suffix_from_append (pre s : string) :
  suffix_from (String.length pre) (pre ++ s) = s.
Proof. induction pre as [|x pre IH]; simpl; [now destruct s | exact IH]. Qed.

Lemma length_suffix_from (i : nat) (s : string) :
  String.length (suffix_from i s) = (String.length s - i)%nat.
Proof.
  revert s. induction i as [|i IH]; intros s.
  - simpl. now rewrite Nat.sub_0_r.
  - destruct s as [|x s]; simpl; [reflexivity | apply IH].
Qed.

(** Characters without a dot after a string leave its last dot where it
    is and lengthen its extension. *)
Lemma extension_append_dotless (a t : string) :
  has_dot t = false ->
  extension (a ++ t) = option_map (fun e => e ++ t) (extension a).
Proof.
  intros Ht. induction a as [|x a IH].
  - simpl. now apply extension_none_iff.
  - change (String x a ++ t) with (String x (a ++ t)).
    rewrite !extension_cons, IH.
    destruct (extension a); simpl; [reflexivity|].
    destruct (Ascii.eqb x "."%char); reflexivity.
Qed.

(** Characters before a string that has a dot do not change its
    extension. *)
Lemma extension_append_dotted (pre s : string) :
  has_dot s = true -> extension (pre ++ s) = extension s.
Proof.
  intros Hs. induction pre as [|x pre IH]; [reflexivity|].
  change (String x pre ++ s) with (String x (pre ++ s)).
  rewrite extension_cons, IH.
  destruct (extension s) eqn:He; [reflexivity|].
  apply extension_none_iff in He. congruence.
Qed.

Lemma listed_length (e : string) : listed e = true -> String.length e = 4%nat.
Proof.
  intros H. apply listed_In in H. simpl in H.
  repeat (destruct H as [<- | H]; [reflexivity|]). contradiction.
Qed.

Lemma listed_no_slash (e : string) : listed e = true -> occurs "/"%char e = false.
Proof.
  intros H. apply listed_In in H. simpl in H.
  repeat (destruct H as [<- | H]; [reflexivity|]). contradiction.
Qed.

(** The answer 1 read back as the specification's decision. *)
Lemma is_image_or_video_1_iff (m : mem) (filename : pointer) (s : string) :
  c_string m filename = Some s ->
  is_image_or_video filename m = Some (1, m) <-> isImageOrVideo s = true.
Proof.
  intros Hs. rewrite (is_image_or_video_run m _ _ Hs).
  destruct (isImageOrVideo s); split; congruence.
Qed.

Lemma is_image_or_video_0_iff (m : mem) (filename : pointer) (s : string) :
  c_string m filename = Some s ->
  is_image_or_video filename m = Some (0, m) <-> isImageOrVideo s = false.
Proof.
  intros Hs. rewrite (is_image_or_video_run m _ _ Hs).
  destruct (isImageOrVideo s); split; congruence.
Qed.

End FurtherStrings.

Section Further.

Import Examples.
Local Open Scope string_scope.

(** X1.  The function has no guard of its own: a call returns exactly
    when its argument designates a terminated string, and then the memory
    is the one it was given.  A null argument, a dangling one, or an
    array without terminator is undefined behaviour. *)
Theorem is_image_or_video_defined_iff (m : mem) (filename : pointer) :
  ((exists r m', is_image_or_video filename m = Some (r, m')) <->
   (exists s, c_string m filename = Some s)) /\
  (filename = NULL -> is_image_or_video filename m = None) /\
  (forall r m', is_image_or_video filename m = Some (r, m') -> m' = m).
Proof.
  assert (Hret : forall r m', is_image_or_video filename m = Some (r, m') ->
                              exists s, c_string m filename = Some s).
  { intros r m' Hr. destruct (c_string m filename) as [s|] eqn:Hs.
    - now exists s.
    - rewrite (is_image_or_video_undefined m filename Hs) in Hr. discriminate. }
  split; [split|split].
  - intros (r & m' & Hr). exact (Hret r m' Hr).
  - intros (s & Hs). do 2 eexists. exact (is_image_or_video_run m _ _ Hs).
  - intros ->. reflexivity.
  - intros r m' Hr. destruct (Hret r m' Hr) as (s & Hs).
    rewrite (is_image_or_video_run m _ _ Hs) in Hr. congruence.
Qed.

(** X2.  Only what follows the last dot counts, so a path and its last
    component get the same answer: when [filename] designates
    [pre ++ s] and [s] has a dot, [filename + strlen(pre)] designates [s]
    and the two calls agree. *)
Theorem is_image_or_video_skip_prefix (m : mem) (q : ptr) (pre s : string) :
  c_string m (Some q) = Some (pre ++ s) ->
  has_dot s = true ->
  c_string m (Some (ptr_add q (String.length pre))) = Some s /\
  is_image_or_video (Some (ptr_add q (String.length pre))) m
  = is_image_or_video (Some q) m.
Proof.
  intros Hq Hs.
  assert (Hp : c_string m (Some (ptr_add q (String.length pre))) = Some s).
  { assert (Hlen : (String.length pre <= String.length (pre ++ s))%nat)
      by (rewrite length_append; lia).
    pose proof (c_string_ptr_add m q _ _ Hq Hlen) as H.
    now rewrite suffix_from_append in H. }
  split; [exact Hp|].
  rewrite (is_image_or_video_run m _ _ Hp), (is_image_or_video_run m _ _ Hq).
  unfold isImageOrVideo. now rewrite (extension_append_dotted pre s Hs).
Qed.

Lemma is_image_or_video_skip_prefix_witness :
  c_string heap (at_ 0 0) = Some ("media/" ++ "clip.mp4") /\
  has_dot "clip.mp4" = true /\
  c_string heap (at_ 0 6) = Some "clip.mp4" /\
  is_image_or_video (at_ 0 6) heap = is_image_or_video (at_ 0 0) heap.
Proof.
  refine (conj eq_refl (conj eq_refl _)).
  exact (is_image_or_video_skip_prefix heap (Ptr (Dynamic 0) 0)
                                       "media/" "clip.mp4" eq_refl eq_refl).
Defined.

(** X3.  The answer 1 fixes the shape of the filename: it has at least
    four characters and its last dot is the fourth character from the
    end.  A filename of fewer than four characters is answered 0. *)
Theorem media_last_dot_fourth_from_end
        (m : mem) (filename : pointer) (s : string) :
  c_string m filename = Some s ->
  (is_image_or_video filename m = Some (1, m) ->
   (4 <= String.length s)%nat /\
   rindex "."%char s = Some (String.length s - 4)%nat) /\
  ((String.length s < 4)%nat ->
   is_image_or_video filename m = Some (0, m)).
Proof.
  intros Hs.
  assert (H1 : isImageOrVideo s = true ->
               (4 <= String.length s)%nat /\
               rindex "."%char s = Some (String.length s - 4)%nat).
  { unfold isImageOrVideo, extension.
    destruct (rindex "."%char s) as [i|] eqn:Hi; simpl; [|discriminate].
    intros Hl. apply listed_length in Hl. rewrite length_suffix_from in Hl.
    split; [lia | f_equal; lia]. }
  split.
  - intros Hr. apply H1. now apply (is_image_or_video_1_iff m filename s Hs).
  - intros Hlen. apply (is_image_or_video_0_iff m filename s Hs).
    destruct (isImageOrVideo s) eqn:Hd; [|reflexivity].
    destruct (H1 eq_refl). lia.
Qed.

Lemma media_last_dot_fourth_from_end_witness :
  c_string heap clip = Some "clip.mp4" /\
  (is_image_or_video clip heap = Some (1, heap) ->
   (4 <= String.length "clip.mp4")%nat /\
   rindex "."%char "clip.mp4" = Some (String.length "clip.mp4" - 4)%nat) /\
  ((String.length "clip.mp4" < 4)%nat ->
   is_image_or_video clip heap = Some (0, heap)).
Proof.
  split; [reflexivity|].
  exact (media_last_dot_fourth_from_end heap clip "clip.mp4" eq_refl).
Defined.

(** X4.  The function is a suffix test: the answer is 1 exactly when
    the filename ends with one of the five listed extensions. *)
Theorem is_image_or_video_suffix_test
        (m : mem) (filename : pointer) (s : string) :
  c_string m filename = Some s ->
  (is_image_or_video filename m = Some (1, m) <->
   exists base e, In e media_extensions /\ s = base ++ e).
Proof.
  intros Hs. rewrite (is_image_or_video_1_iff m filename s Hs).
  unfold isImageOrVideo. split.
  - destruct (extension s) as [e|] eqn:He; [|discriminate].
    intros Hl. apply extension_split in He.
    destruct He as (pre & tail & Hpre & _).
    exists pre, e. split; [now apply listed_In | exact Hpre].
  - intros (base & e & He & ->). apply listed_In in He.
    now rewrite (extension_app_listed base e He).
Qed.

Lemma is_image_or_video_suffix_test_witness :
  c_string heap archive = Some "archive.tar.mp3" /\
  (is_image_or_video archive heap = Some (1, heap) <->
   exists base e, In e media_extensions /\ "archive.tar.mp3" = base ++ e).
Proof.
  split; [reflexivity|].
  exact (is_image_or_video_suffix_test heap archive "archive.tar.mp3" eq_refl).
Defined.

(** X5.  Nothing may follow the extension: a filename made of a listed
    extension and then one or more characters without a dot (a trailing
    space, newline, tilde or slash) is answered 0. *)
Theorem trailing_characters_not_media
        (m : mem) (filename : pointer) (base e t : string) :
  c_string m filename = Some (base ++ e ++ t) ->
  In e media_extensions ->
  t <> "" ->
  has_dot t = false ->
  is_image_or_video filename m = Some (0, m).
Proof.
  intros Hs He Ht Hd. apply listed_In in He.
  apply (is_image_or_video_0_iff m filename _ Hs). unfold isImageOrVideo.
  rewrite <- append_assoc, (extension_append_dotless _ t Hd).
  rewrite (extension_app_listed base e He). simpl.
  destruct (listed (e ++ t)) eqn:Hl; [|reflexivity].
  apply listed_length in Hl. apply listed_length in He.
  rewrite length_append in Hl. destruct t; [congruence | simpl in Hl; lia].
Qed.

Lemma trailing_characters_not_media_witness :
  c_string [] (literal "shot.png~") = Some ("shot" ++ ".png" ++ "~") /\
  In ".png" media_extensions /\
  "~" <> "" /\
  has_dot "~" = false /\
  is_image_or_video (literal "shot.png~") [] = Some (0, []).
Proof.
  assert (Hin : In ".png" media_extensions) by (simpl; tauto).
  assert (Hne : "~" <> "") by discriminate.
  refine (conj eq_refl (conj Hin (conj Hne (conj eq_refl _)))).
  exact (trailing_characters_not_media [] (literal "shot.png~")
                                       "shot" ".png" "~" eq_refl Hin Hne eq_refl).
Defined.

(** X6.  The function does not know about directories: a path whose
    last component has no dot is answered 0 whatever the directories are
    called, a directory named [album.mp3] included. *)
Theorem dotless_last_component_not_media
        (m : mem) (filename : pointer) (dir name : string) :
  c_string m filename = Some (dir ++ String "/"%char name) ->
  has_dot name = false ->
  is_image_or_video filename m = Some (0, m).
Proof.
  intros Hs Hn.
  apply (is_image_or_video_0_iff m filename _ Hs). unfold isImageOrVideo.
  rewrite (extension_append_dotless dir (String "/"%char name) Hn).
  destruct (extension dir) as [e|]; simpl; [|reflexivity].
  destruct (listed (e ++ String "/"%char name)) eqn:Hl; [|reflexivity].
  apply listed_no_slash in Hl. rewrite occurs_append in Hl. simpl in Hl.
  now rewrite orb_true_r in Hl.
Qed.

Lemma dotless_last_component_not_media_witness :
  c_string [] (literal "album.mp3/cover")
  = Some ("album.mp3" ++ String "/"%char "cover") /\
  has_dot "cover" = false /\
  is_image_or_video (literal "album.mp3/cover") [] = Some (0, []).
Proof.
  refine (conj eq_refl (conj eq_refl _)).
  exact (dotless_last_component_not_media [] (literal "album.mp3/cover")
                                          "album.mp3" "cover" eq_refl eq_refl).
Defined.

End Further.
